(** * Portfolio analytics script [dpos.py]: a shallow embedding

    The script is a flat sequence of NumPy one-liners.  Binary64 values are
    modelled by exact rationals [Q] for the finite ones, extended with the
    three special values a NumPy operation can produce out of finite
    operands ([inf], [-inf], [nan]).  Rounding, overflow and the sign of
    zero are not modelled: every finite operation is exact and a zero
    divisor is taken as [+0.0].  Python exceptions are carried by a result
    type. *)

From Stdlib Require Import QArith Qabs Qround Qpower Lqa Qfield.
From Stdlib Require Import ZArith Lia Bool List String.
From Stdlib Require Import Sorting.Sorted Sorting.Permutation Sorting.Mergesort Orders.
Import ListNotations.

Local Open Scope Q_scope.

(** ** Python results *)

Module Py.

Inductive exn : Type :=
| ZeroDivisionError
| IndexError
| ValueError
| NameError (name : string).

Inductive result (A : Type) : Type :=
| Ok (a : A)
| Raise (e : exn).

Arguments Ok {A} a.
Arguments Raise {A} e.

Definition bind {A B : Type} (r : result A) (k : A -> result B) : result B :=
  match r with
  | Ok a => k a
  | Raise e => Raise e
  end.

(** [int(x)] on a float truncates toward zero. *)
Definition int (x : Q) : Z := Z.quot (Qnum x) (Z.pos (Qden x)).

(** The builtins [min] and [max] over a sequence: the first smallest and
    the first largest element, ValueError on an empty sequence. *)
Definition min (a : list Q) : result Q :=
  match a with
  | [] => Raise ValueError
  | x :: rest => Ok (fold_left (fun m y => if Qle_bool m y then m else y) rest x)
  end.

Definition max (a : list Q) : result Q :=
  match a with
  | [] => Raise ValueError
  | x :: rest => Ok (fold_left (fun m y => if Qle_bool y m then m else y) rest x)
  end.

(** A list comprehension whose body can raise: the elements are computed
    in order and the first exception ends it. *)
Fixpoint comprehension {A B : Type} (f : A -> result B) (a : list A) : result (list B) :=
  match a with
  | [] => Ok []
  | x :: rest =>
      bind (f x) (fun y => bind (comprehension f rest) (fun ys => Ok (y :: ys)))
  end.

End Py.

Import Py.

Notation "x <- r ;; k" := (Py.bind r (fun x => k))
  (at level 61, r at next level, right associativity).

(** ** NumPy values and array operations *)

Module Np.

(** A [numpy.float64]. *)
Inductive float64 : Type :=
| Fin (q : Q)
| PInf
| NInf
| NaN.

Definition Qlt_bool (x y : Q) : bool := negb (Qle_bool y x).



Definition neg (x : float64) : float64 :=
  match x with
  | Fin q => Fin (- q)
  | PInf => NInf
  | NInf => PInf
  | NaN => NaN
  end.

Definition add (x y : float64) : float64 :=
  match x, y with
  | NaN, _ | _, NaN => NaN
  | Fin a, Fin b => Fin (a + b)
  | PInf, NInf | NInf, PInf => NaN
  | PInf, _ | _, PInf => PInf
  | NInf, _ | _, NInf => NInf
  end.

Definition sub (x y : float64) : float64 := add x (neg y).

(** [inf] with the sign of [q]; [nan] for [q = 0]. *)
Definition signed_inf (q : Q) : float64 :=
  if Qlt_bool 0 q then PInf else if Qlt_bool q 0 then NInf else NaN.

(** True division of float64 scalars: a zero divisor gives [inf], [-inf]
    or [nan] (with a RuntimeWarning), never an exception. *)
Definition div (x y : float64) : float64 :=
  match x, y with
  | NaN, _ | _, NaN => NaN
  | Fin a, Fin b => if Qeq_bool b 0 then signed_inf a else Fin (a / b)
  | Fin _, _ => Fin 0
  | _, Fin b =>
      if Qlt_bool b 0 then neg x else x
  | _, _ => NaN
  end.


(** Arrays of finite values. *)
Definition ndarray : Type := list Q.

Definition Qsum (a : list Q) : Q := fold_right Qplus 0 a.

(** [np.sum] over a sequence of float64 scalars. *)
Definition sum (a : list float64) : float64 := fold_left add a (Fin 0).

Definition len {A : Type} (a : list A) : Q := inject_Z (Z.of_nat (List.length a)).

(** [np.mean]: sum over count; the empty array gives [0.0 / 0 = nan]. *)
Definition mean (a : ndarray) : float64 := div (Fin (Qsum a)) (Fin (len a)).

(** [np.mean] over a sequence of float64 scalars. *)
Definition mean_scalars (a : list float64) : float64 := div (sum a) (Fin (len a)).

Module QOrder <: TotalLeBool.
Definition t := Q.
Definition leb := Qle_bool.
Theorem leb_total : forall x y, leb x y = true \/ leb y x = true.
Proof.
  intros x y. unfold leb. rewrite !Qle_bool_iff.
  destruct (Qlt_le_dec x y) as [H|H]; [left; apply Qlt_le_weak, H | right; exact H].
Qed.
End QOrder.

Module QSort := Sort QOrder.

(** [np.sort]: the array in ascending order. *)
Definition sort (a : ndarray) : ndarray := QSort.sort a.

(** Elementwise binary operation on two 1-d arrays with NumPy
    broadcasting: equal lengths, or one side of length 1. *)
Fixpoint zip_with (f : Q -> Q -> Q) (a b : ndarray) : ndarray :=
  match a, b with
  | x :: a', y :: b' => f x y :: zip_with f a' b'
  | _, _ => []
  end.

Definition broadcast (f : Q -> Q -> Q) (a b : ndarray) : result ndarray :=
  if Nat.eqb (List.length a) (List.length b) then Ok (zip_with f a b)
  else match a, b with
       | [x], _ => Ok (map (f x) b)
       | _, [y] => Ok (map (fun x => f x y) a)
       | _, _ => Raise ValueError
       end.

(** [np.abs], [a > s], [np.any], [a * s]. *)
Definition abs (a : ndarray) : ndarray := map Qabs a.
Definition gt (a : ndarray) (s : Q) : list bool := map (fun x => Qlt_bool s x) a.
Definition any (a : list bool) : bool := existsb (fun b => b) a.
Definition scale (a : ndarray) (s : Q) : ndarray := map (fun x => x * s) a.

(** [a[i]] with Python's negative indices. *)
Definition getitem (a : ndarray) (i : Z) : result Q :=
  let n := Z.of_nat (List.length a) in
  if ((0 <=? i) && (i <? n))%Z then Ok (nth (Z.to_nat i) a 0)
  else if ((- n <=? i) && (i <? 0))%Z then Ok (nth (Z.to_nat (n + i)) a 0)
  else Raise IndexError.

(** [a[:i]] with Python's negative indices; slices never raise. *)
Definition slice_to (a : ndarray) (i : Z) : ndarray :=
  let n := Z.of_nat (List.length a) in
  if (0 <=? i)%Z then firstn (Z.to_nat i) a
  else firstn (Z.to_nat (n + i)) a.

(** [np.dot] of two 1-d arrays: ValueError when the shapes differ. *)
Definition dot (a b : ndarray) : result Q :=
  if Nat.eqb (List.length a) (List.length b)
  then Ok (Qsum (zip_with Qmult a b))
  else Raise ValueError.

(** [np.dot] of a 2-d array, given by its rows, and a 1-d array. *)
Definition matvec (m : list ndarray) (v : ndarray) : result ndarray :=
  Py.comprehension (fun row => dot row v) m.

(** [np.sqrt] on a finite value: [nan] (with a RuntimeWarning) below 0,
    the root otherwise; [root] is the square-root function itself. *)
Definition sqrt (root : Q -> Q) (x : Q) : float64 :=
  if Qlt_bool x 0 then NaN else Fin (root x).

(** [np.linspace(start, stop, num)] for [num >= 2]: [num] evenly spaced
    samples, both ends included. *)
Definition linspace (start stop : Q) (num : nat) : ndarray :=
  let step := (stop - start) / inject_Z (Z.of_nat (num - 1)) in
  map (fun i => start + inject_Z (Z.of_nat i) * step) (seq 0 num).

End Np.

(** ** Scalars as the script's functions receive them

    A scalar argument is a Python [float] or a [numpy.float64] (what
    [np.dot], [np.sqrt] and [np.mean] return).  An arithmetic operator with
    a NumPy operand is carried out by NumPy, otherwise by Python. *)

Module Scalar.

Inductive t : Type :=
| PyFloat (q : Q)
| NpFloat (x : Np.float64).

Definition to_np (a : t) : Np.float64 :=
  match a with
  | PyFloat q => Np.Fin q
  | NpFloat x => x
  end.

(** [a - b]. *)
Definition sub (a b : t) : t :=
  match a, b with
  | PyFloat x, PyFloat y => PyFloat (x - y)
  | _, _ => NpFloat (Np.sub (to_np a) (to_np b))
  end.

(** [a / b]: Python raises on a zero divisor, NumPy does not. *)
Definition truediv (a b : t) : result t :=
  match a, b with
  | PyFloat x, PyFloat y =>
      if Qeq_bool y 0 then Raise ZeroDivisionError else Ok (PyFloat (x / y))
  | _, _ => Ok (NpFloat (Np.div (to_np a) (to_np b)))
  end.

Definition is_python (a : t) : bool :=
  match a with
  | PyFloat _ => true
  | NpFloat _ => false
  end.



End Scalar.

(** ** The functions of [dpos.py] *)

(** [calculate_dcf].  [z i t] is the standard normal draw that
    [np.random.normal] uses for simulation [i] and period [t]: the sample
    is [loc + scale * z], and a negative scale is refused by NumPy. *)
Definition calculate_dcf (z : nat -> nat -> Q) (cash_flows : list Q)
    (discount_rate : Q) (num_simulations : nat) : result Np.float64 :=
  let n := List.length cash_flows in
  let scale := Np.scale cash_flows 0.05 in
  if existsb (fun s => Np.Qlt_bool s 0) scale then Raise ValueError else
  let simulated_cash_flows (i t : nat) : Q :=
    nth t cash_flows 0 + nth t scale 0 * z i t in
  let discounted_values :=
    map (fun i =>
           Np.sum (map (fun t =>
                          Np.div (Np.Fin (simulated_cash_flows i t))
                                 (Np.Fin ((1 + discount_rate) ^ Z.of_nat (t + 1))))
                       (seq 0 n)))
        (seq 0 num_simulations) in
  Ok (Np.mean_scalars discounted_values).

Definition default_num_simulations : nat := 1000.


Definition default_confidence_level : Q := 0.95.

(** The rank [int((1 - confidence_level) * len(sorted_returns))]. *)
Definition var_index (returns : Np.ndarray) (confidence_level : Q) : Z :=
  Py.int ((1 - confidence_level) * Np.len (Np.sort returns)).

(** [calculate_var_cvar]. *)
Definition calculate_var_cvar (returns : Np.ndarray) (confidence_level : Q)
    : result (Q * Np.float64) :=
  let sorted_returns := Np.sort returns in
  let index := Py.int ((1 - confidence_level) * Np.len sorted_returns) in
  var <- Np.getitem sorted_returns index ;;
  let cvar := Np.mean (Np.slice_to sorted_returns index) in
  Ok (var, cvar).

Definition default_risk_free_rate : Q := 0.01.

(** [calculate_sharpe_ratio]. *)
Definition calculate_sharpe_ratio (portfolio_return portfolio_stddev
    risk_free_rate : Scalar.t) : result Scalar.t :=
  Scalar.truediv (Scalar.sub portfolio_return risk_free_rate) portfolio_stddev.


Definition default_tolerance : Q := 0.05.

(** [rebalance_portfolio]. *)
Definition rebalance_portfolio (weights target_weights : Np.ndarray)
    (tolerance : Q) : result Np.ndarray :=
  d <- Np.broadcast Qminus weights target_weights ;;
  let deviation := Np.abs d in
  if Np.any (Np.gt deviation tolerance) then Ok target_weights
  else Ok weights.

Definition default_transaction_cost : Q := 0.005.

(** [adjust_portfolio_with_costs]. *)
Definition adjust_portfolio_with_costs (weights : Np.ndarray)
    (market_signal transaction_cost : Q) : Np.ndarray :=
  let new_weights := Np.scale weights (1 + market_signal) in
  Np.scale new_weights (1 - transaction_cost).


(** ** The optimizer's side of [dpos.py]

    Two library functions are not expressible over the rationals and are
    taken as parameters: [root], the square root that [np.sqrt] computes on
    non-negative values, and [minimize], SciPy's solver, which maps the
    problem it is handed to the point [result.x] (or raises). *)

(** What [scipy.optimize.minimize] receives: the objective, the starting
    point, the bounds and the equality constraints. *)
Record problem : Type := Problem {
  objective : Np.ndarray -> result Np.float64;
  x0 : Np.ndarray;
  bounds : list (Q * Q);
  constraints : list (Np.ndarray -> result Q)
}.

Section Optimizer.

Variable root : Q -> Q.
Variable minimize : problem -> result Np.ndarray.

(** [portfolio_performance]. *)
Definition portfolio_performance (weights mean_returns : Np.ndarray)
    (cov_matrix : list Np.ndarray) : result (Q * Np.float64) :=
  portfolio_return <- Np.dot weights mean_returns ;;
  cw <- Np.matvec cov_matrix weights ;;
  variance <- Np.dot weights cw ;;
  Ok (portfolio_return, Np.sqrt root variance).

(** [minimize_risk]. *)
Definition minimize_risk (weights mean_returns : Np.ndarray)
    (cov_matrix : list Np.ndarray) : result Np.float64 :=
  p <- portfolio_performance weights mean_returns cov_matrix ;;
  Ok (snd p).

(** The two equality constraints of [efficient_frontier], lines 71-72. *)
Definition return_constraint (mean_returns : Np.ndarray) (cov_matrix : list Np.ndarray)
    (target_return : Q) (x : Np.ndarray) : result Q :=
  p <- portfolio_performance x mean_returns cov_matrix ;;
  Ok (fst p - target_return).

Definition budget_constraint (x : Np.ndarray) : result Q :=
  Ok (Np.Qsum x - 1).

(** The problem [efficient_frontier] builds for [n_assets >= 1]. *)
Definition frontier_problem (mean_returns : Np.ndarray) (cov_matrix : list Np.ndarray)
    (target_return : Q) : problem :=
  let n_assets := List.length mean_returns in
  {| objective := fun x => minimize_risk x mean_returns cov_matrix;
     x0 := repeat (1 / Np.len mean_returns) n_assets;
     bounds := repeat (0, 1) n_assets;
     constraints := [return_constraint mean_returns cov_matrix target_return;
                     budget_constraint] |}.

(** [efficient_frontier]: the starting point [n_assets * [1. / n_assets]]
    is computed before the solver is called, and divides by zero when
    there is no asset. *)
Definition efficient_frontier (mean_returns : Np.ndarray) (cov_matrix : list Np.ndarray)
    (target_return : Q) : result Np.ndarray :=
  let n_assets := List.length mean_returns in
  if Nat.eqb n_assets 0 then Raise ZeroDivisionError
  else minimize (frontier_problem mean_returns cov_matrix target_return).

(** The target returns [plot_efficient_frontier] samples, line 115. *)
Definition frontier_targets (mean_returns : Np.ndarray) : result Np.ndarray :=
  lo <- Py.min mean_returns ;;
  hi <- Py.max mean_returns ;;
  Ok (Np.linspace lo hi 100).

(** [plot_efficient_frontier], up to the drawing: the risks and target
    returns it hands to [plt.plot]. *)
Definition plot_efficient_frontier (mean_returns : Np.ndarray)
    (cov_matrix : list Np.ndarray) : result (list Np.float64 * Np.ndarray) :=
  target_returns <- frontier_targets mean_returns ;;
  risks <- Py.comprehension
             (fun ret =>
                x <- efficient_frontier mean_returns cov_matrix ret ;;
                minimize_risk x mean_returns cov_matrix)
             target_returns ;;
  Ok (risks, target_returns).

(** A point meets the bounds and the constraints the solver is given. *)
Definition within_bounds (x : Np.ndarray) (b : list (Q * Q)) : Prop :=
  Forall2 (fun xi bi => fst bi <= xi /\ xi <= snd bi) x b.

Definition feasible (p : problem) (x : Np.ndarray) : Prop :=
  within_bounds x (bounds p) /\
  Forall (fun c => exists v, c x = Ok v /\ v == 0) (constraints p).

End Optimizer.

(** The quadratic form [weights . (cov_matrix . weights)] whose root
    [portfolio_performance] returns. *)
Definition quadratic_form (cov_matrix : list Np.ndarray) (weights : Np.ndarray) : Q :=
  Np.Qsum (Np.zip_with Qmult weights
             (map (fun row => Np.Qsum (Np.zip_with Qmult row weights)) cov_matrix)).

(** A covariance matrix with [n] rows of [n] entries. *)
Definition square (n : nat) (cov_matrix : list Np.ndarray) : Prop :=
  List.length cov_matrix = n /\ Forall (fun row => List.length row = n) cov_matrix.

(** The portfolio that holds [share] of asset [i] and the rest of asset
    [j], out of [n] assets. *)
Definition two_asset_weights (n i j : nat) (share : Q) : Np.ndarray :=
  map (fun k => (if Nat.eqb k i then share else 0)
                + (if Nat.eqb k j then 1 - share else 0))
      (seq 0 n).

(** ** Comparing results *)

(** Two float64 values that stand for the same number: finite values are
    compared as rationals, a special value only matches itself. *)
Definition float64_same (x y : Np.float64) : Prop :=
  match x, y with
  | Np.Fin a, Np.Fin b => a == b
  | Np.PInf, Np.PInf | Np.NInf, Np.NInf | Np.NaN, Np.NaN => True
  | _, _ => False
  end.

(** How many entries of an array lie strictly below [v]. *)
Definition count_below (v : Q) (a : Np.ndarray) : nat :=
  List.length (filter (fun x => Np.Qlt_bool x v) a).

(** ** The top-level statements of the script

    The module body runs its statements in order against the module's
    global namespace.  A statement is recorded with its line, the global
    names it evaluates (in evaluation order; names looked up in the
    builtins, such as [print], are left out, and so are the names a [def]
    mentions in its body, which are looked up only when the function is
    called) and the names it binds.  Imports are taken to succeed. *)

Module Script.

Local Open Scope string_scope.
Local Open Scope nat_scope.

Inductive kind : Type :=
| Import_
| Def
| Assign
| Print.

Record stmt : Type := Stmt {
  line : nat;
  what : kind;
  reads : list string;
  binds : list string
}.

Record state : Type := State {
  globals : list string;
  stdout : list nat   (* lines of the [print] calls carried out *)
}.

Inductive outcome : Type :=
| Finished (st : state)
| Raised (e : exn) (at_line : nat) (st : state).

Definition bound (g : list string) (x : string) : bool :=
  existsb (String.eqb x) g.

(** The first name of [names] that the namespace does not hold. *)
Definition first_unbound (g : list string) (names : list string) : option string :=
  find (fun x => negb (bound g x)) names.

Definition exec (s : stmt) (st : state) : result state :=
  match first_unbound (globals st) (reads s) with
  | Some x => Raise (NameError x)
  | None =>
      Ok {| globals := binds s ++ globals st;
            stdout := match what s with
                      | Print => stdout st ++ [line s]
                      | _ => stdout st
                      end |}
  end.

Fixpoint run (prog : list stmt) (st : state) : outcome :=
  match prog with
  | [] => Finished st
  | s :: rest =>
      match exec s st with
      | Ok st' => run rest st'
      | Raise e => Raised e (line s) st
      end
  end.

Definition initial : state := {| globals := []; stdout := [] |}.

Definition last_state (o : outcome) : state :=
  match o with
  | Finished st => st
  | Raised _ _ st => st
  end.

(** What the run printed, the names it had bound when it ended, and the
    exception that ended it with its line. *)
Definition printed (o : outcome) : list nat := stdout (last_state o).

Definition final_globals (o : outcome) : list string := globals (last_state o).

Definition error_of (o : outcome) : option (exn * nat) :=
  match o with
  | Finished _ => None
  | Raised e l _ => Some (e, l)
  end.

Definition dpos : list stmt :=
  [ Stmt 1 Import_ [] ["np"];
    Stmt 2 Import_ [] ["pd"];
    Stmt 3 Import_ [] ["minimize"];
    Stmt 4 Import_ [] ["plt"];
    Stmt 8 Def [] ["calculate_dcf"];
    Stmt 23 Def [] ["calculate_var_cvar"];
    Stmt 34 Def [] ["calculate_sharpe_ratio"];
    Stmt 41 Def [] ["fama_french_three_factor_model"];
    Stmt 49 Def [] ["rebalance_portfolio"];
    Stmt 60 Def [] ["portfolio_performance"];
    Stmt 65 Def [] ["minimize_risk"];
    Stmt 68 Def [] ["efficient_frontier"];
    Stmt 78 Import_ [] ["yf"];
    Stmt 80 Def [] ["fetch_market_data"];
    Stmt 88 Assign [] ["tickers"];
    Stmt 89 Assign [] ["start_date"];
    Stmt 90 Assign [] ["end_date"];
    Stmt 92 Assign ["pd"; "price_data"] ["price_df"];
    Stmt 93 Assign ["price_df"] ["returns"];
    Stmt 96 Assign ["returns"] ["mean_returns"];
    Stmt 97 Assign ["returns"] ["cov_matrix"];
    Stmt 100 Assign ["efficient_frontier"; "mean_returns"; "cov_matrix"]
                    ["optimal_weights"];
    Stmt 101 Print ["optimal_weights"] [];
    Stmt 103 Assign ["tickers"; "fetch_market_data"; "start_date"; "end_date"]
                    ["price_data"];
    Stmt 106 Def [] ["adjust_portfolio_with_costs"];
    Stmt 114 Def [] ["plot_efficient_frontier"];
    Stmt 124 Assign ["efficient_frontier"; "mean_returns"; "cov_matrix"]
                    ["optimal_weights"];
    Stmt 125 Print ["optimal_weights"] [];
    Stmt 128 Assign ["adjust_portfolio_with_costs"; "optimal_weights"]
                    ["adjusted_weights"];
    Stmt 129 Print ["adjusted_weights"] [];
    Stmt 132 Assign ["np"; "returns"; "optimal_weights"] ["portfolio_returns"];
    Stmt 133 Assign ["calculate_var_cvar"; "portfolio_returns"] ["var"; "cvar"];
    Stmt 134 Print ["var"; "cvar"] [] ].

(** The lines whose statement binds [x]. *)
Definition binders (prog : list stmt) (x : string) : list nat :=
  map line (filter (fun s => bound (binds s) x) prog).

End Script.

(** ** Sample inputs *)


(** * Properties *)

(** ** Sorting and sums *)

Section SortFacts.

Lemma Qle_bool_trans : Transitive (fun x y => is_true (Qle_bool x y)).
Proof.
  intros x y z Hxy Hyz. unfold is_true in *.
  rewrite Qle_bool_iff in *. eapply Qle_trans; eassumption.
Qed.

Lemma sort_strongly_sorted (a : Np.ndarray) : StronglySorted Qle (Np.sort a).
Proof.
  pose proof (Np.QSort.StronglySorted_sort a Qle_bool_trans) as H.
  unfold Np.sort. induction H as [|x l Hl IH Hx]; constructor; auto.
  eapply Forall_impl; [|exact Hx].
  intros y Hy. apply Qle_bool_iff. exact Hy.
Qed.

Lemma sort_permutation (a : Np.ndarray) : Permutation a (Np.sort a).
Proof. apply Np.QSort.Permuted_sort. Qed.

Lemma sort_length (a : Np.ndarray) : List.length (Np.sort a) = List.length a.
Proof. symmetry. apply Permutation_length, sort_permutation. Qed.



Lemma len_pos {A : Type} (l : list A) : l <> [] -> 0 < Np.len l.
Proof.
  destruct l as [|x l]; [congruence|]. intros _. unfold Np.len.
  change 0 with (inject_Z 0). rewrite <- Zlt_Qlt. simpl List.length. lia.
Qed.

Lemma Qeq_bool_false (x : Q) : ~ x == 0 -> Qeq_bool x 0 = false.
Proof.
  intros H. destruct (Qeq_bool x 0) eqn:E; [|reflexivity].
  apply Qeq_bool_eq in E. contradiction.
Qed.

(** [np.mean] of a non-empty array is its sum over its length. *)
Lemma mean_nonempty (l : Np.ndarray) :
  l <> [] -> Np.mean l = Np.Fin (Np.Qsum l / Np.len l).
Proof.
  intros H. unfold Np.mean, Np.div.
  rewrite Qeq_bool_false; [reflexivity|].
  pose proof (len_pos l H). lra.
Qed.

Lemma mean_empty : Np.mean [] = Np.NaN.
Proof. reflexivity. Qed.


(** [int] agrees with the floor on the non-negative side. *)
Lemma int_floor (x : Q) : (0 <= Qfloor x)%Z -> Py.int x = Qfloor x.
Proof.
  destruct x as [n d]. unfold Py.int, Qfloor. simpl. intros H.
  apply Z.quot_div_nonneg; [|lia].
  destruct (Z_lt_le_dec n 0) as [Hn|Hn]; [|exact Hn].
  exfalso. assert (n / Z.pos d < 0)%Z by (apply Z.div_lt_upper_bound; lia). lia.
Qed.

End SortFacts.

(** ** [calculate_var_cvar] *)

Section VarCvar.

Variable returns : Np.ndarray.
Variable confidence_level : Q.

Let sorted_returns := Np.sort returns.
Local Abbreviation N := (Z.of_nat (List.length returns)).

(** What the function returns at a rank inside the array. *)
Lemma calculate_var_cvar_in_range (i : Z) :
  var_index returns confidence_level = i -> (0 <= i < N)%Z ->
  calculate_var_cvar returns confidence_level =
    Ok (nth (Z.to_nat i) sorted_returns 0,
        Np.mean (firstn (Z.to_nat i) sorted_returns)).
Proof.
  intros Hi Hr. unfold calculate_var_cvar. fold (var_index returns confidence_level).
  rewrite Hi. unfold Np.getitem, Np.slice_to. rewrite sort_length.
  assert (H1 : (0 <=? i)%Z = true) by (apply Z.leb_le; lia).
  assert (H2 : (i <? N)%Z = true) by (apply Z.ltb_lt; lia).
  rewrite H1, H2. reflexivity.
Qed.

(** What it returns at a negative rank, counted from the end. *)
Lemma calculate_var_cvar_negative (i : Z) :
  var_index returns confidence_level = i -> (- N <= i < 0)%Z ->
  calculate_var_cvar returns confidence_level =
    Ok (nth (Z.to_nat (N + i)) sorted_returns 0,
        Np.mean (firstn (Z.to_nat (N + i)) sorted_returns)).
Proof.
  intros Hi Hr. unfold calculate_var_cvar. fold (var_index returns confidence_level).
  rewrite Hi. unfold Np.getitem, Np.slice_to. rewrite sort_length.
  assert (H1 : (0 <=? i)%Z = false) by (apply Z.leb_gt; lia).
  assert (H2 : (- N <=? i)%Z = true) by (apply Z.leb_le; lia).
  assert (H3 : (i <? 0)%Z = true) by (apply Z.ltb_lt; lia).
  rewrite H1, H2, H3. reflexivity.
Qed.

Lemma calculate_var_cvar_out_of_range :
  (var_index returns confidence_level < - N \/ N <= var_index returns confidence_level)%Z ->
  calculate_var_cvar returns confidence_level = Raise IndexError.
Proof.
  intros Hr. unfold calculate_var_cvar. fold (var_index returns confidence_level).
  unfold Np.getitem. rewrite sort_length.
  destruct Hr as [Hr|Hr].
  - assert (H1 : (0 <=? var_index returns confidence_level)%Z = false) by (apply Z.leb_gt; lia).
    assert (H2 : (- N <=? var_index returns confidence_level)%Z = false) by (apply Z.leb_gt; lia).
    rewrite H1, H2. reflexivity.
  - assert (H1 : (var_index returns confidence_level <? N)%Z = false) by (apply Z.ltb_ge; lia).
    assert (H2 : (var_index returns confidence_level <? 0)%Z = false) by (apply Z.ltb_ge; lia).
    rewrite H1, H2, !andb_false_r. reflexivity.
Qed.

(** Every successful call reads some rank [j] of the sorted array and
    averages the [j] elements before it. *)
Lemma calculate_var_cvar_reads_rank (var : Q) (cvar : Np.float64) :
  calculate_var_cvar returns confidence_level = Ok (var, cvar) ->
  exists j, (j < List.length sorted_returns)%nat /\
            var = nth j sorted_returns 0 /\
            cvar = Np.mean (firstn j sorted_returns).
Proof.
  intros H.
  destruct (Z_lt_le_dec (var_index returns confidence_level) 0) as [Hneg|Hpos].
  - destruct (Z_lt_le_dec (var_index returns confidence_level)
                          (- Z.of_nat (List.length returns))) as [Hlow|Hlow].
    + rewrite calculate_var_cvar_out_of_range in H by lia. discriminate.
    + rewrite (calculate_var_cvar_negative _ eq_refl) in H by lia.
      injection H as Hv Hc. eexists. split; [|split; [symmetry; exact Hv | symmetry; exact Hc]].
      unfold sorted_returns. rewrite sort_length. lia.
  - destruct (Z_lt_le_dec (var_index returns confidence_level)
                          (Z.of_nat (List.length returns))) as [Hup|Hup].
    + rewrite (calculate_var_cvar_in_range _ eq_refl) in H by lia.
      injection H as Hv Hc. eexists. split; [|split; [symmetry; exact Hv | symmetry; exact Hc]].
      unfold sorted_returns. rewrite sort_length. lia.
    + rewrite calculate_var_cvar_out_of_range in H by lia. discriminate.
Qed.

End VarCvar.






(** C9: when the computed rank is 0 on a non-empty array, the call still
    returns: the VaR is the smallest return and the CVaR is [nan], the mean
    of the empty slice. *)
Theorem cvar_nan_at_rank_zero (returns : Np.ndarray) (confidence_level : Q) :
  returns <> [] ->
  var_index returns confidence_level = 0%Z ->
  exists var,
    calculate_var_cvar returns confidence_level = Ok (var, Np.NaN) /\
    In var returns /\
    Forall (fun x => var <= x) returns.
Proof.
  intros Hne Hidx.
  assert (Hlen : (0 < List.length returns)%nat).
  { destruct returns; [congruence | simpl; lia]. }
  rewrite (calculate_var_cvar_in_range returns confidence_level 0 Hidx) by lia.
  simpl Z.to_nat. simpl firstn. rewrite mean_empty.
  exists (nth 0 (Np.sort returns) 0). split; [reflexivity|].
  pose proof (sort_permutation returns) as Hperm.
  pose proof (sort_strongly_sorted returns) as Hsorted.
  pose proof (sort_length returns) as Hsl.
  destruct (Np.sort returns) as [|x l] eqn:E; [simpl in Hsl; lia|].
  simpl. split.
  - apply Permutation_in with (l := x :: l); [symmetry; exact Hperm | left; reflexivity].
  - rewrite Hperm.
    inversion Hsorted; subst. constructor; [apply Qle_refl | assumption].
Qed.

Lemma cvar_nan_at_rank_zero_witness :
  exists var,
    calculate_var_cvar [3; 1; 2; 4] 1 = Ok (var, Np.NaN) /\
    In var [3; 1; 2; 4] /\
    Forall (fun x => var <= x) [3; 1; 2; 4].
Proof.
  apply (cvar_nan_at_rank_zero [3; 1; 2; 4] 1).
  - discriminate.
  - reflexivity.
Defined.

(** ** [calculate_sharpe_ratio] *)

Section Sharpe.

Import Scalar.




End Sharpe.







(** ** [rebalance_portfolio] *)

Section Rebalance.

Variable tolerance : Q.

Lemma Qlt_bool_iff (x y : Q) : Np.Qlt_bool x y = true <-> x < y.
Proof.
  unfold Np.Qlt_bool. rewrite negb_true_iff. split.
  - intros H. apply Qnot_le_lt. intros Hle.
    apply Qle_bool_iff in Hle. congruence.
  - intros H. destruct (Qle_bool y x) eqn:E; [|reflexivity].
    apply Qle_bool_iff in E. lra.
Qed.

(** [np.any(np.abs(weights - target_weights) > tolerance)] holds exactly
    when some asset deviates by more than the tolerance. *)
Lemma any_deviation (weights target_weights : Np.ndarray) :
  List.length weights = List.length target_weights ->
  Np.any (Np.gt (Np.abs (Np.zip_with Qminus weights target_weights)) tolerance) = true <->
  exists i, (i < List.length weights)%nat /\
            tolerance < Qabs (nth i weights 0 - nth i target_weights 0).
Proof.
  revert target_weights.
  induction weights as [|w ws IH]; intros [|t ts] Hlen; try discriminate.
  - simpl. split; [discriminate | intros (i & Hi & _); lia].
  - injection Hlen as Hlen. cbn [Np.zip_with Np.abs Np.gt Np.any map existsb].
    rewrite orb_true_iff, Qlt_bool_iff.
    change (existsb (fun b : bool => b)
              (map (fun x => Np.Qlt_bool tolerance x)
                 (map Qabs (Np.zip_with Qminus ws ts))))
      with (Np.any (Np.gt (Np.abs (Np.zip_with Qminus ws ts)) tolerance)).
    rewrite (IH ts Hlen). split.
    + intros [H | (i & Hi & H)].
      * exists 0%nat. split; [simpl; lia | exact H].
      * exists (S i). split; [simpl; lia | exact H].
    + intros ([|i] & Hi & H).
      * left. exact H.
      * right. exists i. split; [simpl in Hi; lia | exact H].
Qed.

Lemma broadcast_same_length (f : Q -> Q -> Q) (a b : Np.ndarray) :
  List.length a = List.length b -> Np.broadcast f a b = Ok (Np.zip_with f a b).
Proof. intros H. unfold Np.broadcast. rewrite H, Nat.eqb_refl. reflexivity. Qed.

End Rebalance.



(** ** [adjust_portfolio_with_costs] *)





(** ** The top-level script *)

(** C3: running the script stops at line 92 with NameError for
    [price_data], before any [print] has run: nothing above line 92 binds
    the name, its only binding is at line 103, and the run never gets
    there (no [optimal_weights] is ever bound). *)
Theorem script_raises_name_error :
  Script.error_of (Script.run Script.dpos Script.initial)
    = Some (NameError "price_data", 92%nat) /\
  Script.printed (Script.run Script.dpos Script.initial) = [] /\
  Script.bound (Script.final_globals (Script.run Script.dpos Script.initial))
    "optimal_weights" = false /\
  Script.binders Script.dpos "price_data" = [103%nat].
Proof.
  split; [vm_compute; reflexivity|].
  split; [vm_compute; reflexivity|].
  split; vm_compute; reflexivity.
Qed.

(** ** [calculate_dcf] *)

Section Dcf.






Lemma Qsum_map_ext {A : Type} (f g : A -> Q) (l : list A) :
  (forall x, In x l -> f x == g x) ->
  Np.Qsum (map f l) == Np.Qsum (map g l).
Proof.
  induction l as [|x l IH]; intros H; simpl; [reflexivity|].
  fold (Np.Qsum (map f l)). fold (Np.Qsum (map g l)).
  rewrite (H x (or_introl eq_refl)), IH; [reflexivity|].
  intros y Hy. apply H. right. exact Hy.
Qed.



Variable z : nat -> nat -> Q.
Variable cash_flows : list Q.
Variable discount_rate : Q.

(** One discounted perturbed flow, as line 16 computes it. *)
Local Abbreviation flow i t :=
  (nth t cash_flows 0 + nth t (Np.scale cash_flows 0.05) 0 * z i t).
Local Abbreviation factor t := ((1 + discount_rate) ^ Z.of_nat (t + 1)).
Local Abbreviation term i t := (Np.div (Np.Fin (flow i t)) (Np.Fin (factor t))).
Local Abbreviation discounted_values num_simulations :=
  (map (fun i => Np.sum (map (fun t => term i t) (seq 0 (List.length cash_flows))))
       (seq 0 num_simulations)).






End Dcf.





(** * Further properties of the functions *)

(** ** Ranks of [calculate_var_cvar] *)

Section Ranks.

Lemma int_of_nonneg (x : Q) : 0 <= x -> Py.int x = Qfloor x.
Proof.
  intros H. apply int_floor.
  change 0%Z with (Qfloor 0). apply Qfloor_resp_le. exact H.
Qed.


Lemma len_sort (a : Np.ndarray) : Np.len (Np.sort a) = Np.len a.
Proof. unfold Np.len. rewrite sort_length. reflexivity. Qed.

(** In a sorted array the elements grow with the rank. *)
Lemma sorted_nth_mono (l : list Q) :
  StronglySorted Qle l ->
  forall i j, (i <= j)%nat -> (j < List.length l)%nat -> nth i l 0 <= nth j l 0.
Proof.
  induction 1 as [|x l Hl IH Hx]; intros i j Hij Hj; simpl in Hj; [lia|].
  destruct j as [|j].
  - assert (i = 0%nat) by lia. subst. apply Qle_refl.
  - destruct i as [|i]; simpl.
    + rewrite Forall_forall in Hx. apply Hx, nth_In. lia.
    + apply IH; lia.
Qed.

(** With a confidence level in (0, 1] the rank lies inside a non-empty
    array. *)
Lemma var_index_in_range (returns : Np.ndarray) (c : Q) :
  returns <> [] -> 0 < c -> c <= 1 ->
  var_index returns c = Qfloor ((1 - c) * Np.len returns) /\
  (0 <= var_index returns c < Z.of_nat (List.length returns))%Z.
Proof.
  intros Hne Hc0 Hc1. pose proof (len_pos returns Hne) as Hpos.
  assert (Hx : 0 <= (1 - c) * Np.len returns) by nra.
  unfold var_index. rewrite len_sort, (int_of_nonneg _ Hx).
  split; [reflexivity|]. split.
  - change 0%Z with (Qfloor 0). apply Qfloor_resp_le. exact Hx.
  - assert (Hlt : (1 - c) * Np.len returns < Np.len returns) by nra.
    pose proof (Qfloor_le ((1 - c) * Np.len returns)) as Hfl.
    assert (H : inject_Z (Qfloor ((1 - c) * Np.len returns))
                < inject_Z (Z.of_nat (List.length returns))).
    { eapply Qle_lt_trans; [exact Hfl | exact Hlt]. }
    rewrite <- Zlt_Qlt in H. exact H.
Qed.

End Ranks.




(** X3: whenever [calculate_var_cvar] returns, the VaR is one of the
    returns it was given. *)
Theorem var_is_a_return (returns : Np.ndarray) (confidence_level var : Q)
    (cvar : Np.float64) :
  calculate_var_cvar returns confidence_level = Ok (var, cvar) ->
  In var returns.
Proof.
  intros H.
  destruct (calculate_var_cvar_reads_rank _ _ _ _ H) as (j & Hj & -> & _).
  apply Permutation_in with (l := Np.sort returns).
  - symmetry. apply sort_permutation.
  - apply nth_In. exact Hj.
Qed.

Lemma var_is_a_return_witness :
  calculate_var_cvar [3; 1; 2; 4] 0.5 = Ok (3, Np.Fin (3 # 2)) /\ In 3 [3; 1; 2; 4].
Proof.
  split; [reflexivity|].
  apply (var_is_a_return [3; 1; 2; 4] 0.5 3 (Np.Fin (3 # 2))).
  reflexivity.
Defined.

(** X4: with the default confidence level 0.95 every non-empty array is
    accepted, and the CVaR is [nan] exactly when there are fewer than 20
    returns. *)
Theorem default_cvar_nan_below_twenty (returns : Np.ndarray) :
  returns <> [] ->
  exists var cvar,
    calculate_var_cvar returns default_confidence_level = Ok (var, cvar) /\
    (cvar = Np.NaN <-> (List.length returns < 20)%nat).
Proof.
  intros Hne.
  destruct (var_index_in_range returns default_confidence_level Hne)
    as [Hidx Hrange]; [reflexivity | discriminate |].
  rewrite (calculate_var_cvar_in_range returns default_confidence_level _ eq_refl Hrange).
  do 2 eexists. split; [reflexivity|].
  assert (Hval : var_index returns default_confidence_level
                 = (5 * Z.of_nat (List.length returns) / 100)%Z).
  { rewrite Hidx. unfold Np.len, Qfloor. simpl. reflexivity. }
  set (i := var_index returns default_confidence_level) in *.
  assert (Hlen : List.length (firstn (Z.to_nat i) (Np.sort returns)) = Z.to_nat i).
  { rewrite length_firstn, sort_length. lia. }
  split.
  - intros Hnan.
    destruct (firstn (Z.to_nat i) (Np.sort returns)) as [|x l] eqn:E.
    + simpl in Hlen. assert (Hi0 : i = 0%Z) by lia.
      rewrite Hi0 in Hval.
      destruct (Nat.lt_ge_cases (List.length returns) 20) as [Hlt|Hge]; [exact Hlt|].
      exfalso.
      assert (1 <= 5 * Z.of_nat (List.length returns) / 100)%Z
        by (apply Z.div_le_lower_bound; lia).
      lia.
    + rewrite mean_nonempty in Hnan by discriminate. discriminate.
  - intros Hlt.
    assert (Hi0 : i = 0%Z).
    { rewrite Hval. apply Z.div_small. lia. }
    rewrite Hi0. reflexivity.
Qed.

Lemma default_cvar_nan_below_twenty_witness :
  exists var cvar,
    calculate_var_cvar [3; 1; 2; 4] default_confidence_level = Ok (var, cvar) /\
    (cvar = Np.NaN <-> (List.length [3; 1; 2; 4] < 20)%nat).
Proof.
  apply (default_cvar_nan_below_twenty [3; 1; 2; 4]). discriminate.
Defined.



(** X6: a confidence level above 1 whose rank comes out as -1 is not
    refused: the rank is counted from the end, and the VaR returned is the
    largest return. *)
Theorem var_wraps_to_maximum (returns : Np.ndarray) (confidence_level : Q) :
  returns <> [] ->
  var_index returns confidence_level = (-1)%Z ->
  exists var cvar,
    calculate_var_cvar returns confidence_level = Ok (var, cvar) /\
    In var returns /\
    Forall (fun x => x <= var) returns.
Proof.
  intros Hne Hidx.
  assert (Hlen : (0 < List.length returns)%nat).
  { destruct returns; [congruence | simpl; lia]. }
  rewrite (calculate_var_cvar_negative returns confidence_level _ Hidx) by lia.
  do 2 eexists. split; [reflexivity|].
  pose proof (sort_permutation returns) as Hperm.
  pose proof (sort_strongly_sorted returns) as Hsorted.
  pose proof (sort_length returns) as Hsl.
  assert (Hlast : (Z.to_nat (Z.of_nat (List.length returns) + -1)
                   < List.length (Np.sort returns))%nat) by lia.
  split.
  - apply Permutation_in with (l := Np.sort returns); [symmetry; exact Hperm|].
    apply nth_In. exact Hlast.
  - rewrite Hperm. apply Forall_forall. intros x Hx.
    destruct (In_nth _ _ 0 Hx) as (k & Hk & <-).
    apply sorted_nth_mono; [exact Hsorted | lia | exact Hlast].
Qed.

Lemma var_wraps_to_maximum_witness :
  exists var cvar,
    calculate_var_cvar [3; 1; 2; 4] 1.3 = Ok (var, cvar) /\
    In var [3; 1; 2; 4] /\
    Forall (fun x => x <= var) [3; 1; 2; 4].
Proof.
  apply (var_wraps_to_maximum [3; 1; 2; 4] 1.3).
  - discriminate.
  - reflexivity.
Defined.

(** ** Sign and failure of [calculate_sharpe_ratio] *)



(** X8: as soon as one of the three arguments is a NumPy float64,
    [calculate_sharpe_ratio] never raises, whatever the values (zero
    deviation, infinities and [nan] included), and its result is a NumPy
    float64 again. *)
Theorem sharpe_ratio_numpy_never_raises (r s rf : Scalar.t) :
  Scalar.is_python r && Scalar.is_python s && Scalar.is_python rf = false ->
  exists x, calculate_sharpe_ratio r s rf = Ok (Scalar.NpFloat x).
Proof.
  intros H. unfold calculate_sharpe_ratio.
  destruct r as [qr|xr], s as [qs|xs], rf as [qrf|xrf]; simpl in H;
    try discriminate; simpl; eexists; reflexivity.
Qed.

Lemma sharpe_ratio_numpy_never_raises_witness :
  exists x,
    calculate_sharpe_ratio (Scalar.PyFloat 0.02) (Scalar.NpFloat Np.NaN)
      (Scalar.PyFloat default_risk_free_rate) = Ok (Scalar.NpFloat x).
Proof.
  apply (sharpe_ratio_numpy_never_raises (Scalar.PyFloat 0.02) (Scalar.NpFloat Np.NaN)
           (Scalar.PyFloat default_risk_free_rate)).
  reflexivity.
Defined.

(** ** [fama_french_three_factor_model] *)



(** ** Shapes and repetition of [rebalance_portfolio] *)

(** X10: rebalancing is idempotent: rebalancing the output of
    [rebalance_portfolio] against the same target with the same tolerance
    returns that output again. *)
Theorem rebalance_portfolio_idempotent (weights target_weights out : Np.ndarray)
    (tolerance : Q) :
  List.length weights = List.length target_weights ->
  rebalance_portfolio weights target_weights tolerance = Ok out ->
  rebalance_portfolio out target_weights tolerance = Ok out.
Proof.
  intros Hlen H. unfold rebalance_portfolio in H.
  rewrite broadcast_same_length in H by exact Hlen. cbn [Py.bind] in H.
  destruct (Np.any (Np.gt (Np.abs (Np.zip_with Qminus weights target_weights)) tolerance))
    eqn:E; injection H as <-.
  - unfold rebalance_portfolio. rewrite broadcast_same_length by reflexivity.
    cbn [Py.bind].
    destruct (Np.any (Np.gt (Np.abs (Np.zip_with Qminus target_weights target_weights))
                            tolerance)); reflexivity.
  - unfold rebalance_portfolio. rewrite broadcast_same_length by exact Hlen.
    cbn [Py.bind]. rewrite E. reflexivity.
Qed.

Lemma rebalance_portfolio_idempotent_witness :
  rebalance_portfolio [0.75; 0.25] [0.75; 0.25] default_tolerance = Ok [0.75; 0.25].
Proof.
  apply (rebalance_portfolio_idempotent [0.5; 0.5] [0.75; 0.25] [0.75; 0.25]
           default_tolerance); reflexivity.
Defined.

(** X11: weight vectors of different lengths, neither of length 1, cannot
    be subtracted: [rebalance_portfolio] raises ValueError. *)
Theorem rebalance_portfolio_shape_mismatch (weights target_weights : Np.ndarray)
    (tolerance : Q) :
  List.length weights <> List.length target_weights ->
  List.length weights <> 1%nat ->
  List.length target_weights <> 1%nat ->
  rebalance_portfolio weights target_weights tolerance = Raise ValueError.
Proof.
  intros Hne Hw Ht. unfold rebalance_portfolio, Np.broadcast.
  apply Nat.eqb_neq in Hne. rewrite Hne.
  destruct weights as [|w [|w' ws]]; simpl in Hw; try congruence;
    destruct target_weights as [|t [|t' ts]]; simpl in Ht; try congruence;
    reflexivity.
Qed.

Lemma rebalance_portfolio_shape_mismatch_witness :
  rebalance_portfolio [0.5; 0.5] [0.25; 0.25; 0.5] default_tolerance = Raise ValueError.
Proof.
  apply (rebalance_portfolio_shape_mismatch [0.5; 0.5] [0.25; 0.25; 0.5]
           default_tolerance); simpl; lia.
Defined.

Lemma broadcast_scalar_target (f : Q -> Q -> Q) (a : Np.ndarray) (y : Q) :
  List.length a <> 1%nat -> Np.broadcast f a [y] = Ok (map (fun x => f x y) a).
Proof.
  intros H. destruct a as [|x [|x' a]]; simpl in H; try congruence; reflexivity.
Qed.

(** X12: a target of length 1 is broadcast against the weights instead of
    being refused, and the whole one-element target is what comes back when
    some weight is further than the tolerance from that single value: the
    output can be shorter than the weights. *)
Theorem rebalance_portfolio_broadcast_target (weights : Np.ndarray) (target tolerance : Q) :
  List.length weights <> 1%nat ->
  (exists i, (i < List.length weights)%nat /\
             tolerance < Qabs (nth i weights 0 - target)) ->
  rebalance_portfolio weights [target] tolerance = Ok [target].
Proof.
  intros Hlen Hex. unfold rebalance_portfolio.
  rewrite broadcast_scalar_target by exact Hlen. cbn [Py.bind].
  assert (Hany : Np.any (Np.gt (Np.abs (map (fun x => x - target) weights)) tolerance) = true).
  { clear Hlen. destruct Hex as (i & Hi & Hgt). revert i Hi Hgt.
    induction weights as [|w ws IH]; intros i Hi Hgt; simpl in Hi; [lia|].
    cbn [map Np.abs Np.gt Np.any existsb]. apply orb_true_iff.
    destruct i as [|i].
    - left. apply Qlt_bool_iff. exact Hgt.
    - right. apply (IH i); [lia | exact Hgt]. }
  rewrite Hany. reflexivity.
Qed.

Lemma rebalance_portfolio_broadcast_target_witness :
  rebalance_portfolio [0.5; 0.25; 0.25] [0.5] default_tolerance = Ok [0.5].
Proof.
  apply (rebalance_portfolio_broadcast_target [0.5; 0.25; 0.25] 0.5 default_tolerance).
  - simpl. lia.
  - exists 1%nat. split; [simpl; lia | reflexivity].
Defined.

(** X13: with a negative tolerance every non-empty pair of equal-length
    vectors is rebalanced to the target, even when the weights already
    equal it. *)
Theorem rebalance_portfolio_negative_tolerance (weights target_weights : Np.ndarray)
    (tolerance : Q) :
  List.length weights = List.length target_weights ->
  weights <> [] ->
  tolerance < 0 ->
  rebalance_portfolio weights target_weights tolerance = Ok target_weights.
Proof.
  intros Hlen Hne Htol. unfold rebalance_portfolio.
  rewrite broadcast_same_length by exact Hlen. cbn [Py.bind].
  assert (Hany : Np.any (Np.gt (Np.abs (Np.zip_with Qminus weights target_weights))
                               tolerance) = true).
  { apply any_deviation; [exact Hlen|].
    exists 0%nat. split.
    - destruct weights; [congruence | simpl; lia].
    - pose proof (Qabs_nonneg (nth 0 weights 0 - nth 0 target_weights 0)). lra. }
  rewrite Hany. reflexivity.
Qed.

Lemma rebalance_portfolio_negative_tolerance_witness :
  rebalance_portfolio [0.5; 0.5] [0.5; 0.5] (-0.25) = Ok [0.5; 0.5].
Proof.
  apply (rebalance_portfolio_negative_tolerance [0.5; 0.5] [0.5; 0.5] (-0.25)).
  - reflexivity.
  - discriminate.
  - reflexivity.
Defined.

(** ** What [adjust_portfolio_with_costs] keeps *)

Lemma adjust_portfolio_with_costs_map (weights : Np.ndarray) (s c : Q) :
  adjust_portfolio_with_costs weights s c =
    map (fun w => w * (1 + s) * (1 - c)) weights.
Proof. unfold adjust_portfolio_with_costs, Np.scale. rewrite map_map. reflexivity. Qed.




(** X16: with a market signal of at least -1 and a transaction cost of at
    most 1 non-negative weights stay non-negative; a market signal of -1
    or a transaction cost of 1 sets every weight to 0. *)
Theorem adjust_portfolio_with_costs_sign (weights : Np.ndarray)
    (market_signal transaction_cost : Q) :
  Forall (fun w => 0 <= w) weights ->
  (-1 <= market_signal -> transaction_cost <= 1 ->
   Forall (fun w => 0 <= w)
     (adjust_portfolio_with_costs weights market_signal transaction_cost)) /\
  (market_signal == -1 \/ transaction_cost == 1 ->
   Forall (fun w => w == 0)
     (adjust_portfolio_with_costs weights market_signal transaction_cost)).
Proof.
  intros Hw. rewrite adjust_portfolio_with_costs_map. split.
  - intros Hs Hc. apply Forall_map. eapply Forall_impl; [|exact Hw].
    intros w H. cbv beta in *.
    assert (H1 : 0 <= w * (1 + market_signal)) by nra. nra.
  - intros Hor. apply Forall_map. apply Forall_forall. intros w _.
    destruct Hor as [H|H]; rewrite H; ring.
Qed.

Lemma adjust_portfolio_with_costs_sign_witness :
  Forall (fun w => 0 <= w)
    (adjust_portfolio_with_costs [0.5; 0.5] 0.01 default_transaction_cost).
Proof.
  apply (adjust_portfolio_with_costs_sign [0.5; 0.5] 0.01 default_transaction_cost).
  - repeat constructor; discriminate.
  - discriminate.
  - discriminate.
Defined.

(** ** Noise and scale in [calculate_dcf] *)

Section DcfFormula.


Lemma Qsum_map_const {A : Type} (c : Q) (l : list A) :
  Np.Qsum (map (fun _ => c) l) == Np.len l * c.
Proof.
  unfold Np.len. induction l as [|x l IH].
  - simpl. ring.
  - cbn [map Np.Qsum fold_right List.length].
    fold (Np.Qsum (map (fun _ : A => c) l)).
    rewrite IH, Nat2Z.inj_succ. unfold Z.succ. rewrite inject_Z_plus.
    change (inject_Z 1) with 1. ring.
Qed.




End DcfFormula.

(** X17: a negative cash flow makes the noise scale negative, which
    [np.random.normal] refuses: [calculate_dcf] raises ValueError, whatever
    the rate and the number of simulations. *)
Theorem calculate_dcf_negative_cash_flow (z : nat -> nat -> Q) (cash_flows : list Q)
    (discount_rate : Q) (num_simulations : nat) :
  Exists (fun cf => cf < 0) cash_flows ->
  calculate_dcf z cash_flows discount_rate num_simulations = Raise ValueError.
Proof.
  intros H. unfold calculate_dcf.
  assert (E : existsb (fun s => Np.Qlt_bool s 0) (Np.scale cash_flows 0.05) = true).
  { induction H as [cf l Hcf | cf l Hl IH]; simpl; apply orb_true_iff.
    - left. apply Qlt_bool_iff. lra.
    - right. exact IH. }
  rewrite E. reflexivity.
Qed.

Lemma calculate_dcf_negative_cash_flow_witness :
  calculate_dcf (fun _ _ => 0) [100; -50] 0.1 default_num_simulations = Raise ValueError.
Proof.
  apply (calculate_dcf_negative_cash_flow (fun _ _ => 0) [100; -50] 0.1
           default_num_simulations).
  right. left. reflexivity.
Defined.





(** ** The order of the returns does not matter *)

Section Reordering.

Lemma count_below_permutation (v : Q) (a b : Np.ndarray) :
  Permutation a b -> count_below v a = count_below v b.
Proof.
  unfold count_below. induction 1 as [|x l l' _ IH|x y l|l l' l'' _ IH1 _ IH2]; simpl.
  - reflexivity.
  - destruct (Np.Qlt_bool x v); simpl; congruence.
  - destruct (Np.Qlt_bool x v), (Np.Qlt_bool y v); reflexivity.
  - congruence.
Qed.

Lemma count_below_none (v : Q) (l : list Q) :
  Forall (fun y => v <= y) l -> count_below v l = 0%nat.
Proof.
  unfold count_below. induction 1 as [|y l Hy _ IH]; simpl; [reflexivity|].
  destruct (Np.Qlt_bool y v) eqn:E; [|exact IH].
  apply Qlt_bool_iff in E. lra.
Qed.

Lemma count_below_cons (v x : Q) (l : list Q) :
  count_below v (x :: l)
  = ((if Np.Qlt_bool x v then 1 else 0) + count_below v l)%nat.
Proof. unfold count_below. simpl. destruct (Np.Qlt_bool x v); reflexivity. Qed.

(** In a sorted array [v] is at most the element of rank [j] exactly when
    at most [j] elements lie strictly below [v]. *)
Lemma sorted_rank_count (l : list Q) :
  StronglySorted Qle l ->
  forall j v, (j < List.length l)%nat ->
    (v <= nth j l 0 <-> (count_below v l <= j)%nat).
Proof.
  induction 1 as [|x l Hl IH Hx]; intros j v Hj; simpl in Hj; [lia|].
  rewrite count_below_cons. destruct j as [|j]; simpl nth.
  - split.
    + intros Hv. rewrite count_below_none.
      * destruct (Np.Qlt_bool x v) eqn:E; [|lia]. apply Qlt_bool_iff in E. lra.
      * eapply Forall_impl; [|exact Hx]. intros y Hy. cbv beta in *. lra.
    + intros Hc. destruct (Np.Qlt_bool x v) eqn:E; [lia|].
      destruct (Qlt_le_dec x v) as [Hlt|Hle]; [|exact Hle].
      apply Qlt_bool_iff in Hlt. congruence.
  - assert (Hj' : (j < List.length l)%nat) by lia.
    specialize (IH j v Hj'). split.
    + intros Hv. apply IH in Hv. destruct (Np.Qlt_bool x v); lia.
    + intros Hc. destruct (Np.Qlt_bool x v) eqn:E.
      * apply IH. lia.
      * destruct (Qlt_le_dec x v) as [Hlt|Hle].
        -- apply Qlt_bool_iff in Hlt. congruence.
        -- rewrite Forall_forall in Hx.
           pose proof (Hx _ (nth_In l 0 Hj')). lra.
Qed.

(** The sorted forms of two arrangements of the same returns agree rank by
    rank. *)
Lemma sorted_permutation_nth (l1 l2 : list Q) (j : nat) :
  StronglySorted Qle l1 -> StronglySorted Qle l2 -> Permutation l1 l2 ->
  (j < List.length l1)%nat -> nth j l1 0 == nth j l2 0.
Proof.
  intros H1 H2 Hp Hj.
  assert (Hj2 : (j < List.length l2)%nat)
    by (rewrite <- (Permutation_length Hp); exact Hj).
  apply Qle_antisym.
  - apply (sorted_rank_count l2 H2 j _ Hj2).
    rewrite <- (count_below_permutation _ _ _ Hp).
    apply (sorted_rank_count l1 H1 j _ Hj). apply Qle_refl.
  - apply (sorted_rank_count l1 H1 j _ Hj).
    rewrite (count_below_permutation _ _ _ Hp).
    apply (sorted_rank_count l2 H2 j _ Hj2). apply Qle_refl.
Qed.

Lemma Qsum_cons (x : Q) (l : list Q) : Np.Qsum (x :: l) = x + Np.Qsum l.
Proof. reflexivity. Qed.

Lemma Qsum_firstn_succ (l : list Q) (j : nat) :
  (j < List.length l)%nat ->
  Np.Qsum (firstn (S j) l) == Np.Qsum (firstn j l) + nth j l 0.
Proof.
  revert j. induction l as [|x l IH]; intros j Hj; simpl in Hj; [lia|].
  destruct j as [|j].
  - simpl. ring.
  - change (firstn (S (S j)) (x :: l)) with (x :: firstn (S j) l).
    change (firstn (S j) (x :: l)) with (x :: firstn j l).
    change (nth (S j) (x :: l) 0) with (nth j l 0).
    rewrite !Qsum_cons, IH by lia. ring.
Qed.

Lemma sorted_permutation_prefix (l1 l2 : list Q) :
  StronglySorted Qle l1 -> StronglySorted Qle l2 -> Permutation l1 l2 ->
  forall j, (j <= List.length l1)%nat ->
    Np.Qsum (firstn j l1) == Np.Qsum (firstn j l2).
Proof.
  intros H1 H2 Hp. induction j as [|j IH]; intros Hj.
  - reflexivity.
  - rewrite !Qsum_firstn_succ by (try rewrite <- (Permutation_length Hp); lia).
    rewrite IH by lia.
    rewrite (sorted_permutation_nth l1 l2 j H1 H2 Hp) by lia. reflexivity.
Qed.

Lemma mean_prefix_same (l1 l2 : list Q) (j : nat) :
  StronglySorted Qle l1 -> StronglySorted Qle l2 -> Permutation l1 l2 ->
  (j <= List.length l1)%nat ->
  float64_same (Np.mean (firstn j l1)) (Np.mean (firstn j l2)).
Proof.
  intros H1 H2 Hp Hj.
  pose proof (Permutation_length Hp) as Hlen.
  destruct j as [|j]; [exact I|].
  assert (Hn1 : firstn (S j) l1 <> []).
  { destruct l1; [simpl in Hj; lia | discriminate]. }
  assert (Hn2 : firstn (S j) l2 <> []).
  { destruct l2; [simpl in Hlen; lia | discriminate]. }
  rewrite !mean_nonempty by assumption. cbn [float64_same].
  rewrite (sorted_permutation_prefix l1 l2 H1 H2 Hp (S j) Hj).
  unfold Np.len. rewrite !length_firstn, Hlen. reflexivity.
Qed.

End Reordering.

(** X20: [calculate_var_cvar] does not depend on the order of the returns:
    on two arrangements of the same returns it raises the same exception or
    returns the same VaR and the same CVaR. *)
Theorem calculate_var_cvar_order_independent (returns1 returns2 : Np.ndarray)
    (confidence_level : Q) :
  Permutation returns1 returns2 ->
  match calculate_var_cvar returns1 confidence_level,
        calculate_var_cvar returns2 confidence_level with
  | Ok (var1, cvar1), Ok (var2, cvar2) => var1 == var2 /\ float64_same cvar1 cvar2
  | Raise e1, Raise e2 => e1 = e2
  | _, _ => False
  end.
Proof.
  intros Hp.
  pose proof (Permutation_length Hp) as Hlen.
  assert (Hidx : var_index returns2 confidence_level = var_index returns1 confidence_level).
  { unfold var_index. rewrite !len_sort. unfold Np.len. rewrite Hlen. reflexivity. }
  assert (Hps : Permutation (Np.sort returns1) (Np.sort returns2)).
  { rewrite <- (sort_permutation returns1), <- (sort_permutation returns2). exact Hp. }
  pose proof (sort_strongly_sorted returns1) as S1.
  pose proof (sort_strongly_sorted returns2) as S2.
  set (i := var_index returns1 confidence_level) in *.
  destruct (Z_lt_le_dec i 0) as [Hneg|Hpos].
  - destruct (Z_lt_le_dec i (- Z.of_nat (List.length returns1))) as [Hlow|Hlow].
    + rewrite (calculate_var_cvar_out_of_range returns1) by (fold i; lia).
      rewrite (calculate_var_cvar_out_of_range returns2) by (rewrite Hidx, <- Hlen; lia).
      reflexivity.
    + rewrite (calculate_var_cvar_negative returns1 confidence_level i eq_refl) by lia.
      rewrite (calculate_var_cvar_negative returns2 confidence_level i Hidx)
        by (rewrite <- Hlen; lia).
      rewrite <- Hlen. split.
      * apply sorted_permutation_nth; try assumption. rewrite sort_length. lia.
      * apply mean_prefix_same; try assumption. rewrite sort_length. lia.
  - destruct (Z_lt_le_dec i (Z.of_nat (List.length returns1))) as [Hup|Hup].
    + rewrite (calculate_var_cvar_in_range returns1 confidence_level i eq_refl) by lia.
      rewrite (calculate_var_cvar_in_range returns2 confidence_level i Hidx)
        by (rewrite <- Hlen; lia).
      split.
      * apply sorted_permutation_nth; try assumption. rewrite sort_length. lia.
      * apply mean_prefix_same; try assumption. rewrite sort_length. lia.
    + rewrite (calculate_var_cvar_out_of_range returns1) by (fold i; lia).
      rewrite (calculate_var_cvar_out_of_range returns2) by (rewrite Hidx, <- Hlen; lia).
      reflexivity.
Qed.

Lemma calculate_var_cvar_order_independent_witness :
  match calculate_var_cvar [3; 1; 2; 4] 0.5, calculate_var_cvar [1; 3; 2; 4] 0.5 with
  | Ok (var1, cvar1), Ok (var2, cvar2) => var1 == var2 /\ float64_same cvar1 cvar2
  | Raise e1, Raise e2 => e1 = e2
  | _, _ => False
  end.
Proof.
  apply (calculate_var_cvar_order_independent [3; 1; 2; 4] [1; 3; 2; 4] 0.5).
  apply perm_swap.
Defined.

(** ** [portfolio_performance] and the problem of [efficient_frontier] *)

Section Shapes.

Lemma dot_same_length (a b : Np.ndarray) :
  List.length a = List.length b -> Np.dot a b = Ok (Np.Qsum (Np.zip_with Qmult a b)).
Proof. intros H. unfold Np.dot. rewrite H, Nat.eqb_refl. reflexivity. Qed.

Lemma dot_mismatch (a b : Np.ndarray) :
  List.length a <> List.length b -> Np.dot a b = Raise ValueError.
Proof. intros H. unfold Np.dot. apply Nat.eqb_neq in H. rewrite H. reflexivity. Qed.

Lemma matvec_rows (m : list Np.ndarray) (v : Np.ndarray) :
  Forall (fun row => List.length row = List.length v) m ->
  Np.matvec m v = Ok (map (fun row => Np.Qsum (Np.zip_with Qmult row v)) m).
Proof.
  unfold Np.matvec. induction 1 as [|row m Hrow _ IH]; simpl; [reflexivity|].
  rewrite (dot_same_length row v Hrow). cbn [Py.bind]. rewrite IH. reflexivity.
Qed.

Variable root : Q -> Q.

Lemma portfolio_performance_shaped (weights mean_returns : Np.ndarray)
    (cov_matrix : list Np.ndarray) :
  List.length weights = List.length mean_returns ->
  square (List.length weights) cov_matrix ->
  portfolio_performance root weights mean_returns cov_matrix =
    Ok (Np.Qsum (Np.zip_with Qmult weights mean_returns),
        Np.sqrt root (quadratic_form cov_matrix weights)).
Proof.
  intros Hmu [Hrows Hcols]. unfold portfolio_performance.
  rewrite (dot_same_length _ _ Hmu). cbn [Py.bind].
  rewrite (matvec_rows _ _ Hcols). cbn [Py.bind].
  rewrite dot_same_length by (rewrite length_map; symmetry; exact Hrows).
  reflexivity.
Qed.

End Shapes.

(** X21: [portfolio_performance] refuses weights whose length differs
    from the number of mean returns: [np.dot] raises ValueError. *)
Theorem portfolio_performance_shape_mismatch (root : Q -> Q)
    (weights mean_returns : Np.ndarray) (cov_matrix : list Np.ndarray) :
  List.length weights <> List.length mean_returns ->
  portfolio_performance root weights mean_returns cov_matrix = Raise ValueError.
Proof.
  intros H. unfold portfolio_performance. rewrite (dot_mismatch _ _ H). reflexivity.
Qed.

Lemma portfolio_performance_shape_mismatch_witness :
  portfolio_performance (fun x => x) [0.5; 0.5] [0.01; 0.02; 0.03]
    [[1; 0]; [0; 1]] = Raise ValueError.
Proof.
  apply (portfolio_performance_shape_mismatch (fun x => x) [0.5; 0.5] [0.01; 0.02; 0.03]
           [[1; 0]; [0; 1]]).
  simpl. lia.
Defined.

(** X22: on matching shapes [portfolio_performance] never raises; its
    return is the weighted sum of the mean returns, and its deviation is
    [nan] exactly when the quadratic form of the covariance matrix at the
    weights is negative. *)
Theorem portfolio_performance_nan_deviation (root : Q -> Q)
    (weights mean_returns : Np.ndarray) (cov_matrix : list Np.ndarray) :
  List.length weights = List.length mean_returns ->
  square (List.length weights) cov_matrix ->
  exists deviation,
    portfolio_performance root weights mean_returns cov_matrix =
      Ok (Np.Qsum (Np.zip_with Qmult weights mean_returns), deviation) /\
    minimize_risk root weights mean_returns cov_matrix = Ok deviation /\
    (deviation = Np.NaN <-> quadratic_form cov_matrix weights < 0).
Proof.
  intros Hmu Hsq. eexists. split; [|split].
  - apply portfolio_performance_shaped; assumption.
  - unfold minimize_risk.
    rewrite (portfolio_performance_shaped root _ _ _ Hmu Hsq). reflexivity.
  - unfold Np.sqrt.
    destruct (Np.Qlt_bool (quadratic_form cov_matrix weights) 0) eqn:E.
    + apply Qlt_bool_iff in E. split; [intros _; exact E | reflexivity].
    + split; [discriminate|]. intros H. apply Qlt_bool_iff in H. congruence.
Qed.

Lemma portfolio_performance_nan_deviation_witness :
  exists deviation,
    portfolio_performance (fun x => x) [0.5; 0.5] [0.01; 0.03] [[1; -2]; [-2; 1]] =
      Ok (Np.Qsum (Np.zip_with Qmult [0.5; 0.5] [0.01; 0.03]), deviation) /\
    minimize_risk (fun x => x) [0.5; 0.5] [0.01; 0.03] [[1; -2]; [-2; 1]] = Ok deviation /\
    (deviation = Np.NaN <-> quadratic_form [[1; -2]; [-2; 1]] [0.5; 0.5] < 0).
Proof.
  apply (portfolio_performance_nan_deviation (fun x => x) [0.5; 0.5] [0.01; 0.03]
           [[1; -2]; [-2; 1]]).
  - reflexivity.
  - split; [reflexivity | repeat constructor].
Defined.

(** X23: the only exception [efficient_frontier] adds to those of the
    solver is ZeroDivisionError, raised without assets when the starting
    point is computed and before the solver is reached: with a solver that
    always returns, it raises exactly when [mean_returns] is empty. *)
Theorem efficient_frontier_own_failure (root : Q -> Q)
    (minimize : problem -> result Np.ndarray) (mean_returns : Np.ndarray)
    (cov_matrix : list Np.ndarray) (target_return : Q) :
  (forall p, exists x, minimize p = Ok x) ->
  (mean_returns = [] ->
   efficient_frontier root minimize mean_returns cov_matrix target_return
   = Raise ZeroDivisionError) /\
  (forall e,
     efficient_frontier root minimize mean_returns cov_matrix target_return = Raise e ->
     mean_returns = [] /\ e = ZeroDivisionError).
Proof.
  intros Hsolver. split.
  - intros ->. reflexivity.
  - intros e H. destruct mean_returns as [|m mu].
    + injection H as <-. split; reflexivity.
    + unfold efficient_frontier in H. cbn [List.length Nat.eqb] in H.
      destruct (Hsolver (frontier_problem root (m :: mu) cov_matrix target_return))
        as (x & Hx).
      rewrite Hx in H. discriminate.
Qed.

Lemma efficient_frontier_own_failure_witness :
  efficient_frontier (fun x => x) (fun p => Ok (x0 p)) [] [] 0.02
  = Raise ZeroDivisionError.
Proof.
  apply (efficient_frontier_own_failure (fun x => x) (fun p => Ok (x0 p)) [] [] 0.02).
  - intros p. exists (x0 p). reflexivity.
  - reflexivity.
Defined.

Section StartingPoint.



End StartingPoint.



(** ** Which targets have feasible weights *)

Section Feasibility.

Variable root : Q -> Q.

Lemma within_unit_bounds (x : Np.ndarray) (n : nat) :
  within_bounds x (repeat (0, 1) n) ->
  List.length x = n /\ Forall (fun xi => 0 <= xi /\ xi <= 1) x.
Proof.
  revert n. induction x as [|xi x IH]; intros [|n] H; inversion H; subst.
  - split; [reflexivity | constructor].
  - destruct (IH n) as [Hl Hf]; [assumption|].
    split; [simpl; congruence | constructor; assumption].
Qed.

(** A weighted sum with non-negative weights lies between the smallest and
    the largest value times the sum of the weights. *)
Lemma weighted_sum_bounds (lo hi : Q) (x mu : list Q) :
  List.length x = List.length mu ->
  Forall (fun xi => 0 <= xi /\ xi <= 1) x ->
  Forall (fun m => lo <= m /\ m <= hi) mu ->
  lo * Np.Qsum x <= Np.Qsum (Np.zip_with Qmult x mu) /\
  Np.Qsum (Np.zip_with Qmult x mu) <= hi * Np.Qsum x.
Proof.
  revert mu. induction x as [|xi x IH]; intros [|m mu] Hlen Hx Hmu;
    try discriminate.
  - simpl. split; lra.
  - inversion Hx as [|? ? [Hx0 Hx1] Hx']; subst.
    inversion Hmu as [|? ? [Hlo Hhi] Hmu']; subst.
    injection Hlen as Hlen.
    destruct (IH mu Hlen Hx' Hmu') as [IHl IHh].
    cbn [Np.zip_with]. rewrite !Qsum_cons. split; nra.
Qed.

(** What being feasible for the problem of [efficient_frontier] means. *)
Lemma feasible_frontier (mean_returns : Np.ndarray) (cov_matrix : list Np.ndarray)
    (target_return : Q) (x : Np.ndarray) :
  feasible (frontier_problem root mean_returns cov_matrix target_return) x ->
  List.length x = List.length mean_returns /\
  Forall (fun xi => 0 <= xi /\ xi <= 1) x /\
  Np.Qsum x == 1 /\
  Np.Qsum (Np.zip_with Qmult x mean_returns) == target_return.
Proof.
  intros [Hb Hc]. cbn [frontier_problem bounds constraints] in *.
  destruct (within_unit_bounds _ _ Hb) as [Hlen Hx].
  inversion Hc as [|? ? (v1 & Hv1 & Hz1) Hc']; subst.
  inversion Hc' as [|? ? (v2 & Hv2 & Hz2) _]; subst.
  split; [exact Hlen|]. split; [exact Hx|]. split.
  - unfold budget_constraint in Hv2. injection Hv2 as <-. lra.
  - unfold return_constraint, portfolio_performance in Hv1.
    rewrite (dot_same_length _ _ Hlen) in Hv1. cbn [Py.bind] in Hv1.
    destruct (Np.matvec cov_matrix x) as [cw|e]; [|discriminate].
    cbn [Py.bind] in Hv1.
    destruct (Np.dot x cw) as [variance|e]; [|discriminate].
    cbn [Py.bind fst] in Hv1. injection Hv1 as <-. lra.
Qed.

Lemma Qsum_map_plus {A : Type} (f g : A -> Q) (l : list A) :
  Np.Qsum (map (fun k => f k + g k) l) == Np.Qsum (map f l) + Np.Qsum (map g l).
Proof.
  induction l as [|k l IH]; simpl; [ring|].
  fold (Np.Qsum (map (fun k => f k + g k) l)).
  fold (Np.Qsum (map f l)). fold (Np.Qsum (map g l)). rewrite IH. ring.
Qed.

(** Summing [c * f k] over the single index [i] of a range. *)
Lemma Qsum_indicator (f : nat -> Q) (c : Q) (i a n : nat) :
  (a <= i < a + n)%nat ->
  Np.Qsum (map (fun k => (if Nat.eqb k i then c else 0) * f k) (seq a n)) == c * f i.
Proof.
  revert a. induction n as [|n IH]; intros a Hi; [lia|].
  cbn [seq map]. rewrite Qsum_cons.
  destruct (Nat.eqb a i) eqn:E.
  - apply Nat.eqb_eq in E. subst a.
    rewrite (Qsum_map_ext _ (fun _ => 0)).
    + rewrite Qsum_map_const. ring.
    + intros k Hk. apply in_seq in Hk.
      assert (Hki : Nat.eqb k i = false) by (apply Nat.eqb_neq; lia).
      rewrite Hki. ring.
  - apply Nat.eqb_neq in E. rewrite IH by lia. ring.
Qed.

Lemma zip_with_seq (g : nat -> Q) (mu : list Q) (a : nat) :
  Np.zip_with Qmult (map g (seq a (List.length mu))) mu
  = map (fun k => g k * nth (k - a) mu 0) (seq a (List.length mu)).
Proof.
  revert a. induction mu as [|m mu IH]; intros a; [reflexivity|].
  cbn [List.length seq map Np.zip_with]. rewrite Nat.sub_diag. cbn [nth].
  f_equal. rewrite IH. apply map_ext_in. intros k Hk. apply in_seq in Hk.
  replace (k - a)%nat with (S (k - S a)) by lia. reflexivity.
Qed.

Lemma two_asset_length (n i j : nat) (share : Q) :
  List.length (two_asset_weights n i j share) = n.
Proof. unfold two_asset_weights. rewrite length_map, length_seq. reflexivity. Qed.

Lemma two_asset_sum (n i j : nat) (share : Q) :
  (i < n)%nat -> (j < n)%nat -> Np.Qsum (two_asset_weights n i j share) == 1.
Proof.
  intros Hi Hj. unfold two_asset_weights.
  rewrite (Qsum_map_plus (fun k => if Nat.eqb k i then share else 0)
                         (fun k => if Nat.eqb k j then 1 - share else 0)).
  rewrite (Qsum_map_ext (fun k => if Nat.eqb k i then share else 0)
                        (fun k => (if Nat.eqb k i then share else 0) * 1))
    by (intros; ring).
  rewrite (Qsum_map_ext (fun k => if Nat.eqb k j then 1 - share else 0)
                        (fun k => (if Nat.eqb k j then 1 - share else 0) * 1))
    by (intros; ring).
  rewrite (Qsum_indicator (fun _ => 1) share i 0 n) by lia.
  rewrite (Qsum_indicator (fun _ => 1) (1 - share) j 0 n) by lia.
  ring.
Qed.

Lemma two_asset_return (mu : list Q) (i j : nat) (share : Q) :
  (i < List.length mu)%nat -> (j < List.length mu)%nat ->
  Np.Qsum (Np.zip_with Qmult (two_asset_weights (List.length mu) i j share) mu)
  == share * nth i mu 0 + (1 - share) * nth j mu 0.
Proof.
  intros Hi Hj. unfold two_asset_weights. rewrite zip_with_seq.
  rewrite (Qsum_map_ext _
             (fun k => (if Nat.eqb k i then share else 0) * nth k mu 0
                       + (if Nat.eqb k j then 1 - share else 0) * nth k mu 0))
    by (intros k _; rewrite Nat.sub_0_r; ring).
  rewrite (Qsum_map_plus (fun k => (if Nat.eqb k i then share else 0) * nth k mu 0)
                         (fun k => (if Nat.eqb k j then 1 - share else 0) * nth k mu 0)).
  rewrite (Qsum_indicator (fun k => nth k mu 0) share i 0) by lia.
  rewrite (Qsum_indicator (fun k => nth k mu 0) (1 - share) j 0) by lia.
  reflexivity.
Qed.

Lemma two_asset_within_bounds (n i j : nat) (share : Q) :
  0 <= share -> share <= 1 ->
  within_bounds (two_asset_weights n i j share) (repeat (0, 1) n).
Proof.
  intros H0 H1. unfold two_asset_weights, within_bounds.
  generalize 0%nat as a. induction n as [|n IH]; intros a; simpl; constructor.
  - simpl. destruct (Nat.eqb a i), (Nat.eqb a j); split; lra.
  - apply IH.
Qed.

(** A target between two of the mean returns has feasible weights, on
    those two assets. *)
Lemma feasible_between (mean_returns : Np.ndarray) (cov_matrix : list Np.ndarray)
    (target_return : Q) (i j : nat) :
  square (List.length mean_returns) cov_matrix ->
  (i < List.length mean_returns)%nat -> (j < List.length mean_returns)%nat ->
  nth i mean_returns 0 <= target_return -> target_return <= nth j mean_returns 0 ->
  exists share,
    feasible (frontier_problem root mean_returns cov_matrix target_return)
             (two_asset_weights (List.length mean_returns) i j share).
Proof.
  intros Hsq Hi Hj Hlo Hhi.
  set (a := nth i mean_returns 0) in *. set (b := nth j mean_returns 0) in *.
  assert (Hshare : exists share, 0 <= share /\ share <= 1 /\
                                 share * a + (1 - share) * b == target_return).
  { destruct (Qlt_le_dec a b) as [Hab|Hba].
    - exists ((b - target_return) / (b - a)). split; [|split].
      + apply Qle_shift_div_l; lra.
      + apply Qle_shift_div_r; lra.
      + field. lra.
    - exists 1. split; [lra|]. split; [lra|]. lra. }
  destruct Hshare as (share & H0 & H1 & Hret).
  exists share. split.
  - cbn [frontier_problem bounds]. apply two_asset_within_bounds; assumption.
  - cbn [frontier_problem constraints].
    pose proof (two_asset_length (List.length mean_returns) i j share) as Hlen.
    constructor; [|constructor; [|constructor]].
    + unfold return_constraint.
      rewrite portfolio_performance_shaped
        by (first [exact Hlen | rewrite Hlen; exact Hsq]).
      cbn [Py.bind fst]. eexists. split; [reflexivity|].
      rewrite two_asset_return by assumption. fold a b. lra.
    + unfold budget_constraint. eexists. split; [reflexivity|].
      rewrite two_asset_sum by assumption. ring.
Qed.

End Feasibility.

(** X25: a target return above the largest or below the smallest mean
    return has no feasible weights: whatever meets the bounds and both
    constraints of [efficient_frontier] has a target within the range of
    the mean returns. *)
Theorem frontier_target_within_range (root : Q -> Q) (mean_returns : Np.ndarray)
    (cov_matrix : list Np.ndarray) (target_return lo hi : Q) (x : Np.ndarray) :
  Forall (fun m => lo <= m /\ m <= hi) mean_returns ->
  feasible (frontier_problem root mean_returns cov_matrix target_return) x ->
  lo <= target_return /\ target_return <= hi.
Proof.
  intros Hmu Hf.
  destruct (feasible_frontier root _ _ _ _ Hf) as (Hlen & Hx & Hsum & Hret).
  destruct (weighted_sum_bounds lo hi x mean_returns Hlen Hx Hmu) as [Hl Hh].
  rewrite Hsum, Hret in Hl, Hh. split; lra.
Qed.

(** X26: conversely, with a covariance matrix of the right shape every
    target between two of the mean returns has feasible weights: a
    portfolio of those two assets meets the bounds, sums to 1 and has the
    target as its return. *)
Theorem frontier_target_feasible (root : Q -> Q) (mean_returns : Np.ndarray)
    (cov_matrix : list Np.ndarray) (target_return : Q) (i j : nat) :
  square (List.length mean_returns) cov_matrix ->
  (i < List.length mean_returns)%nat -> (j < List.length mean_returns)%nat ->
  nth i mean_returns 0 <= target_return -> target_return <= nth j mean_returns 0 ->
  exists x,
    feasible (frontier_problem root mean_returns cov_matrix target_return) x /\
    List.length x = List.length mean_returns /\
    Np.Qsum x == 1 /\
    Forall (fun xi => 0 <= xi /\ xi <= 1) x.
Proof.
  intros Hsq Hi Hj Hlo Hhi.
  destruct (feasible_between root mean_returns cov_matrix target_return i j
              Hsq Hi Hj Hlo Hhi) as (share & Hf).
  eexists. split; [exact Hf|].
  destruct (feasible_frontier root _ _ _ _ Hf) as (Hlen & Hx & Hsum & _).
  split; [exact Hlen|]. split; [exact Hsum | exact Hx].
Qed.

Lemma frontier_target_within_range_witness :
  0.01 <= 0.02 /\ 0.02 <= 0.03.
Proof.
  apply (frontier_target_within_range (fun x => x) [0.01; 0.03] [[1; 0]; [0; 1]]
           0.02 0.01 0.03 [0.5; 0.5]).
  - repeat constructor; discriminate.
  - split.
    + repeat constructor; discriminate.
    + constructor; [|constructor; [|constructor]];
        (eexists; split; [reflexivity | reflexivity]).
Defined.

Lemma frontier_target_feasible_witness :
  exists x,
    feasible (frontier_problem (fun x => x) [0.01; 0.03] [[1; 0]; [0; 1]] 0.02) x /\
    List.length x = List.length [0.01; 0.03] /\
    Np.Qsum x == 1 /\
    Forall (fun xi => 0 <= xi /\ xi <= 1) x.
Proof.
  apply (frontier_target_feasible (fun x => x) [0.01; 0.03] [[1; 0]; [0; 1]] 0.02 0 1).
  - split; [reflexivity | repeat constructor].
  - simpl. lia.
  - simpl. lia.
  - discriminate.
  - discriminate.
Defined.

(** ** The targets of [plot_efficient_frontier] *)

Section Targets.

Lemma fold_min_spec (rest : list Q) (x : Q) :
  let m := fold_left (fun m y => if Qle_bool m y then m else y) rest x in
  In m (x :: rest) /\ m <= x /\ Forall (fun y => m <= y) rest.
Proof.
  revert x. induction rest as [|y rest IH]; intros x; cbn [fold_left].
  - cbv zeta. split; [left; reflexivity|]. split; [apply Qle_refl | constructor].
  - specialize (IH (if Qle_bool x y then x else y)). cbv zeta in *.
    destruct IH as (Hin & Hle & Hall).
    destruct (Qle_bool x y) eqn:E.
    + apply Qle_bool_iff in E. split; [|split].
      * destruct Hin as [H|H]; [left; exact H | right; right; exact H].
      * exact Hle.
      * constructor; [lra | exact Hall].
    + assert (Hyx : y <= x).
      { destruct (Qlt_le_dec x y) as [H|H]; [|exact H].
        apply Qlt_le_weak, Qle_bool_iff in H. congruence. }
      split; [|split].
      * destruct Hin as [H|H]; [right; left; exact H | right; right; exact H].
      * lra.
      * constructor; [exact Hle | exact Hall].
Qed.

Lemma fold_max_spec (rest : list Q) (x : Q) :
  let m := fold_left (fun m y => if Qle_bool y m then m else y) rest x in
  In m (x :: rest) /\ x <= m /\ Forall (fun y => y <= m) rest.
Proof.
  revert x. induction rest as [|y rest IH]; intros x; cbn [fold_left].
  - cbv zeta. split; [left; reflexivity|]. split; [apply Qle_refl | constructor].
  - specialize (IH (if Qle_bool y x then x else y)). cbv zeta in *.
    destruct IH as (Hin & Hle & Hall).
    destruct (Qle_bool y x) eqn:E.
    + apply Qle_bool_iff in E. split; [|split].
      * destruct Hin as [H|H]; [left; exact H | right; right; exact H].
      * exact Hle.
      * constructor; [lra | exact Hall].
    + assert (Hxy : x <= y).
      { destruct (Qlt_le_dec y x) as [H|H]; [|exact H].
        apply Qlt_le_weak, Qle_bool_iff in H. congruence. }
      split; [|split].
      * destruct Hin as [H|H]; [right; left; exact H | right; right; exact H].
      * lra.
      * constructor; [exact Hle | exact Hall].
Qed.

Lemma min_max_spec (a : list Q) :
  a <> [] ->
  exists lo hi,
    Py.min a = Ok lo /\ Py.max a = Ok hi /\ In lo a /\ In hi a /\
    Forall (fun m => lo <= m /\ m <= hi) a.
Proof.
  destruct a as [|x rest]; [congruence|]. intros _.
  destruct (fold_min_spec rest x) as (Hin1 & Hle1 & Hall1).
  destruct (fold_max_spec rest x) as (Hin2 & Hle2 & Hall2).
  do 2 eexists. split; [reflexivity|]. split; [reflexivity|].
  split; [exact Hin1|]. split; [exact Hin2|].
  constructor; [split; assumption|].
  rewrite Forall_forall in *. intros y Hy. split; [apply Hall1 | apply Hall2]; exact Hy.
Qed.

Lemma linspace_length (start stop : Q) (num : nat) :
  List.length (Np.linspace start stop num) = num.
Proof. unfold Np.linspace. rewrite length_map, length_seq. reflexivity. Qed.

Lemma linspace_nth (start stop : Q) (num i : nat) :
  (i < num)%nat ->
  nth i (Np.linspace start stop num) 0
  = start + inject_Z (Z.of_nat i) * ((stop - start) / inject_Z (Z.of_nat (num - 1))).
Proof.
  intros Hi. unfold Np.linspace.
  rewrite (nth_indep _ 0 ((fun i => start + inject_Z (Z.of_nat i)
             * ((stop - start) / inject_Z (Z.of_nat (num - 1)))) 0%nat))
    by (rewrite length_map, length_seq; exact Hi).
  rewrite (map_nth (fun i => start + inject_Z (Z.of_nat i)
             * ((stop - start) / inject_Z (Z.of_nat (num - 1))))).
  rewrite seq_nth by exact Hi. reflexivity.
Qed.

(** The samples of [np.linspace] start at [start], end at [stop] and stay
    between the two. *)
Lemma linspace_range (start stop : Q) (num : nat) :
  (2 <= num)%nat -> start <= stop ->
  nth 0 (Np.linspace start stop num) 0 == start /\
  nth (num - 1) (Np.linspace start stop num) 0 == stop /\
  Forall (fun y => start <= y /\ y <= stop) (Np.linspace start stop num).
Proof.
  intros Hnum Hle.
  assert (Hd : 0 < inject_Z (Z.of_nat (num - 1))).
  { change 0 with (inject_Z 0). rewrite <- Zlt_Qlt. lia. }
  split; [|split].
  - rewrite linspace_nth by lia. change (inject_Z (Z.of_nat 0)) with 0. ring.
  - rewrite linspace_nth by lia. field. lra.
  - apply Forall_forall. intros y Hy.
    destruct (In_nth _ _ 0 Hy) as (i & Hi & <-).
    rewrite linspace_length in Hi. rewrite linspace_nth by exact Hi.
    assert (Hi0 : 0 <= inject_Z (Z.of_nat i)).
    { change 0 with (inject_Z 0). rewrite <- Zle_Qle. lia. }
    assert (Hi1 : inject_Z (Z.of_nat i) <= inject_Z (Z.of_nat (num - 1))).
    { rewrite <- Zle_Qle. lia. }
    set (d := inject_Z (Z.of_nat (num - 1))) in *.
    set (k := inject_Z (Z.of_nat i)) in *.
    assert (Hfrac : k * ((stop - start) / d) == (stop - start) * (k / d))
      by (field; lra).
    assert (Hk0 : 0 <= k / d) by (apply Qle_shift_div_l; lra).
    assert (Hk1 : k / d <= 1) by (apply Qle_shift_div_r; lra).
    rewrite Hfrac. split; nra.
Qed.

Lemma comprehension_length {A B : Type} (f : A -> result B) (a : list A) (ys : list B) :
  Py.comprehension f a = Ok ys -> List.length ys = List.length a.
Proof.
  revert ys. induction a as [|x a IH]; intros ys H; simpl in H.
  - injection H as <-. reflexivity.
  - destruct (f x) as [y|e]; [|discriminate]. cbn [Py.bind] in H.
    destruct (Py.comprehension f a) as [ys'|e]; [|discriminate].
    cbn [Py.bind] in H. injection H as <-. simpl. rewrite (IH ys' eq_refl). reflexivity.
Qed.

Lemma frontier_targets_spec (mean_returns : Np.ndarray) :
  mean_returns <> [] ->
  exists lo hi,
    frontier_targets mean_returns = Ok (Np.linspace lo hi 100) /\
    In lo mean_returns /\ In hi mean_returns /\
    Forall (fun m => lo <= m /\ m <= hi) mean_returns /\ lo <= hi.
Proof.
  intros Hne.
  destruct (min_max_spec mean_returns Hne) as (lo & hi & Hmin & Hmax & Hlo & Hhi & Hall).
  exists lo, hi. unfold frontier_targets. rewrite Hmin, Hmax.
  split; [reflexivity|]. split; [exact Hlo|]. split; [exact Hhi|]. split; [exact Hall|].
  rewrite Forall_forall in Hall. apply (Hall hi Hhi).
Qed.

End Targets.

Lemma comprehension_returns {A B : Type} (f : A -> result B) (a : list A) :
  Forall (fun x => exists y, f x = Ok y) a ->
  exists ys, Py.comprehension f a = Ok ys.
Proof.
  induction 1 as [|x a (y & Hy) _ (ys & IH)]; simpl.
  - eexists. reflexivity.
  - rewrite Hy. cbn [Py.bind]. rewrite IH. cbn [Py.bind]. eexists. reflexivity.
Qed.

(** X27: without mean returns [plot_efficient_frontier] raises ValueError
    (the [min] of an empty sequence) before any optimization is run; with
    at least one asset, a covariance matrix of the right shape and a solver
    that returns a point with one weight per asset, it runs all its
    optimizations and completes. *)
Theorem plot_efficient_frontier_completes (root : Q -> Q)
    (minimize : problem -> result Np.ndarray) (mean_returns : Np.ndarray)
    (cov_matrix : list Np.ndarray) :
  (forall p, exists x, minimize p = Ok x /\ List.length x = List.length (x0 p)) ->
  square (List.length mean_returns) cov_matrix ->
  (mean_returns = [] ->
   plot_efficient_frontier root minimize mean_returns cov_matrix = Raise ValueError) /\
  (mean_returns <> [] ->
   exists risks target_returns,
     plot_efficient_frontier root minimize mean_returns cov_matrix
     = Ok (risks, target_returns)).
Proof.
  intros Hsolver Hsq. split.
  - intros ->. reflexivity.
  - intros Hne.
    destruct (frontier_targets_spec mean_returns Hne) as (lo & hi & Hts & _).
    unfold plot_efficient_frontier. rewrite Hts. cbn [Py.bind].
    match goal with
    | |- exists _ _, Py.bind (Py.comprehension ?f ?a) _ = _ =>
        destruct (comprehension_returns f a) as (risks & Hr)
    end.
    + apply Forall_forall. intros t _.
      unfold efficient_frontier.
      assert (Hn : Nat.eqb (List.length mean_returns) 0 = false).
      { destruct mean_returns; [congruence | reflexivity]. }
      rewrite Hn.
      destruct (Hsolver (frontier_problem root mean_returns cov_matrix t))
        as (x & Hx & Hlen).
      rewrite Hx. cbn [Py.bind].
      cbn [frontier_problem x0] in Hlen. rewrite repeat_length in Hlen.
      unfold minimize_risk.
      rewrite portfolio_performance_shaped
        by (first [exact Hlen | rewrite Hlen; exact Hsq]).
      eexists. reflexivity.
    + rewrite Hr. cbn [Py.bind]. do 2 eexists. reflexivity.
Qed.

Lemma plot_efficient_frontier_completes_witness :
  exists risks target_returns,
    plot_efficient_frontier (fun x => x) (fun p => Ok (x0 p)) [0.01; 0.03]
      [[1; 0]; [0; 1]] = Ok (risks, target_returns).
Proof.
  apply (plot_efficient_frontier_completes (fun x => x) (fun p => Ok (x0 p))
           [0.01; 0.03] [[1; 0]; [0; 1]]).
  - intros p. exists (x0 p). split; reflexivity.
  - split; [reflexivity | repeat constructor].
  - discriminate.
Defined.

(** X28: what [plot_efficient_frontier] plots, when no exception ends it,
    is 100 risks against 100 target returns; the targets start at the
    smallest mean return, end at the largest, and all lie between the
    two. *)
Theorem plot_efficient_frontier_points (root : Q -> Q)
    (minimize : problem -> result Np.ndarray) (mean_returns : Np.ndarray)
    (cov_matrix : list Np.ndarray) (risks : list Np.float64)
    (target_returns : Np.ndarray) :
  plot_efficient_frontier root minimize mean_returns cov_matrix
    = Ok (risks, target_returns) ->
  List.length risks = 100%nat /\ List.length target_returns = 100%nat /\
  exists lo hi,
    In lo mean_returns /\ In hi mean_returns /\
    Forall (fun m => lo <= m /\ m <= hi) mean_returns /\
    nth 0 target_returns 0 == lo /\ nth 99 target_returns 0 == hi /\
    Forall (fun t => lo <= t /\ t <= hi) target_returns.
Proof.
  intros H.
  destruct mean_returns as [|m mu] eqn:Emu; [discriminate|]. rewrite <- Emu in *.
  assert (Hne : mean_returns <> []) by (rewrite Emu; discriminate).
  destruct (frontier_targets_spec mean_returns Hne)
    as (lo & hi & Hts & Hlo & Hhi & Hall & Hle).
  unfold plot_efficient_frontier in H. rewrite Hts in H. cbn [Py.bind] in H.
  match type of H with
  | Py.bind ?c _ = _ => destruct c as [rs|e] eqn:Ers; [|discriminate]
  end.
  cbn [Py.bind] in H. injection H as <- <-.
  apply comprehension_length in Ers. rewrite linspace_length in Ers.
  split; [exact Ers|]. split; [apply linspace_length|].
  exists lo, hi.
  destruct (linspace_range lo hi 100) as (H0 & H99 & Hin); [lia | exact Hle |].
  split; [exact Hlo|]. split; [exact Hhi|]. split; [exact Hall|].
  split; [exact H0|]. split; [exact H99 | exact Hin].
Qed.

Lemma plot_efficient_frontier_points_witness :
  match plot_efficient_frontier (fun x => x) (fun p => Ok (x0 p))
          [0.01; 0.03] [[1; 0]; [0; 1]] with
  | Ok (risks, target_returns) =>
      List.length risks = 100%nat /\ List.length target_returns = 100%nat
  | Raise _ => False
  end.
Proof.
  pose proof (plot_efficient_frontier_points (fun x => x) (fun p => Ok (x0 p))
                [0.01; 0.03] [[1; 0]; [0; 1]]) as H.
  destruct (plot_efficient_frontier (fun x => x) (fun p => Ok (x0 p))
              [0.01; 0.03] [[1; 0]; [0; 1]]) as [[risks target_returns]|e] eqn:E.
  - destruct (H risks target_returns eq_refl) as (Hr & Ht & _). split; assumption.
  - vm_compute in E. discriminate E.
Defined.

(** X29: with a covariance matrix of the right shape every target return
    that [plot_efficient_frontier] asks [efficient_frontier] for has
    feasible weights. *)
Theorem frontier_targets_feasible (root : Q -> Q) (mean_returns : Np.ndarray)
    (cov_matrix : list Np.ndarray) :
  mean_returns <> [] ->
  square (List.length mean_returns) cov_matrix ->
  exists target_returns,
    frontier_targets mean_returns = Ok target_returns /\
    Forall (fun t =>
              exists x, feasible (frontier_problem root mean_returns cov_matrix t) x)
           target_returns.
Proof.
  intros Hne Hsq.
  destruct (frontier_targets_spec mean_returns Hne)
    as (lo & hi & Hts & Hlo & Hhi & Hall & Hle).
  eexists. split; [exact Hts|].
  destruct (linspace_range lo hi 100) as (_ & _ & Hin); [lia | exact Hle |].
  destruct (In_nth _ _ 0 Hlo) as (i & Hi & Ei).
  destruct (In_nth _ _ 0 Hhi) as (j & Hj & Ej).
  eapply Forall_impl; [|exact Hin].
  intros t [Ht1 Ht2].
  destruct (feasible_between root mean_returns cov_matrix t i j Hsq Hi Hj)
    as (share & Hf); [rewrite Ei; exact Ht1 | rewrite Ej; exact Ht2 |].
  eexists. exact Hf.
Qed.

Lemma frontier_targets_feasible_witness :
  exists target_returns,
    frontier_targets [0.01; 0.03] = Ok target_returns /\
    Forall (fun t =>
              exists x, feasible (frontier_problem (fun x => x) [0.01; 0.03]
                                    [[1; 0]; [0; 1]] t) x)
           target_returns.
Proof.
  apply (frontier_targets_feasible (fun x => x) [0.01; 0.03] [[1; 0]; [0; 1]]).
  - discriminate.
  - split; [reflexivity | repeat constructor].
Defined.
